(** * upfall_project: the RAG pipeline orchestration layer

    A shallow embedding of [src/ingestion/ingestion.service.ts] and
    [src/chat/chat.service.ts].  The services are glue around third-party
    collaborators (the PDF loader, the text splitter, the Chroma vector store,
    the OpenAI model, the LangGraph runtime).  Those collaborators are not part
    of the sources: the services are embedded over a record [Externals] that
    holds them, and every asynchronous, fallible call returns a [result]. *)

From Stdlib Require Import List String Ascii Arith NArith Lia Bool.
From Stdlib Require Import Numbers.DecimalString Numbers.DecimalNat.
Import ListNotations.
Open Scope list_scope.
Open Scope string_scope.

Set Implicit Arguments.

(** ** Thrown errors and awaited results *)

(** A JavaScript [Error] carrying its message; a rejected promise of a
    collaborator carries one too. *)
Inductive exn : Type :=
| Error (message : string).

(** The outcome of awaiting a promise: the value, or the thrown error. *)
Inductive result (A : Type) : Type :=
| Ok (a : A)
| Err (e : exn).

Arguments Ok {A} a.
Arguments Err {A} e.

Definition bind {A B : Type} (m : result A) (k : A -> result B) : result B :=
  match m with
  | Ok a => k a
  | Err e => Err e
  end.

Notation "x <- m ;; k" := (bind m (fun x => k))
  (at level 61, m at next level, right associativity).

Definition succeeded {A : Type} (m : result A) : bool :=
  match m with Ok _ => true | Err _ => false end.

(** ** JavaScript string helpers *)

Definition LF : string := String (ascii_of_nat 10) EmptyString.
Definition DQUOTE : string := String (ascii_of_nat 34) EmptyString.

(** [Array.prototype.join]. *)
Fixpoint join (sep : string) (parts : list string) : string :=
  match parts with
  | [] => EmptyString
  | [p] => p
  | p :: rest => p ++ sep ++ join sep rest
  end.

(** Interpolation of a number in a template literal. *)
Definition numberToString (n : nat) : string :=
  NilEmpty.string_of_uint (Nat.to_uint n).

(** JavaScript truthiness of a string: only [''] is falsy. *)
Definition truthy (s : string) : bool :=
  match s with EmptyString => false | String _ _ => true end.

(** [a || b] on strings. *)
Definition orElse (a b : string) : string := if truthy a then a else b.

(** ** Data model *)

(** [Document] of [@langchain/core/documents]. *)
Record Document : Type := mkDocument {
  pageContent : string;
  metadata : list (string * string)
}.

(** [interface RAGState]. *)
Record RAGState : Type := mkRAGState {
  question : string;
  documents : list Document;
  answer : string
}.

(** The embedding model handed to the store; both services construct
    [new OpenAIEmbeddings()] with no argument. *)
Inductive Embeddings : Type :=
| OpenAIEmbeddings.

(** The [dbConfig] argument of [Chroma.fromDocuments] and
    [Chroma.fromExistingCollection]. *)
Record ChromaArgs : Type := mkChromaArgs {
  collectionName : string;
  url : string
}.

(** A rendered chat prompt: the [(role, content)] messages. *)
Definition PromptValue : Type := list (string * string).

(** Options of [new OpenAI({...})]. *)
Record ModelOptions : Type := mkModelOptions {
  modelName : string;
  temperature : nat
}.

(** ** The state graph handed to LangGraph *)

Definition START : string := "__start__".
Definition END : string := "__end__".

Section StateGraph.
Variable W : Type.

(** An asynchronous node function [(state) => Promise<state>]. *)
Definition NodeFn : Type := RAGState -> W -> result RAGState.

(** What a [StateGraph] builder has been told: its channels, the nodes
    registered with [addNode], and the edges added with [addEdge]. *)
Record StateGraph : Type := mkStateGraph {
  channels : list string;
  registered : list (string * NodeFn);
  edges : list (string * string)
}.

Definition newStateGraph (chans : list string) : StateGraph :=
  {| channels := chans; registered := []; edges := [] |}.

Definition addNode (name : string) (fn : NodeFn) (g : StateGraph) : StateGraph :=
  {| channels := channels g;
     registered := (registered g ++ [(name, fn)])%list;
     edges := edges g |}.

Definition addEdge (source target : string) (g : StateGraph) : StateGraph :=
  {| channels := channels g;
     registered := registered g;
     edges := (edges g ++ [(source, target)])%list |}.

Definition addNodes (table : list (string * NodeFn)) (g : StateGraph) : StateGraph :=
  fold_left (fun acc entry => addNode (fst entry) (snd entry) acc) table g.

Fixpoint lookup {A : Type} (key : string) (table : list (string * A)) : option A :=
  match table with
  | [] => None
  | (k, v) :: rest => if String.eqb k key then Some v else lookup key rest
  end.

(** One node execution of a run: the node, the state it was given and what
    it returned. *)
Record Event : Type := mkEvent {
  ev_node : string;
  ev_in : RAGState;
  ev_out : result RAGState
}.

(** Modelled from the spec: the execution of a compiled graph; LangGraph's
    runtime is not part of the sources.  Following section 4.4, a run starts
    at [START], follows the outgoing edge of the current position, runs the
    node registered under the edge's target on the current state, and stops
    at [END]; a failure in a node aborts the run.  [fuel] bounds the number
    of steps (LangGraph's recursion limit).  The run returns its node
    executions in order, and its outcome. *)
Fixpoint walk (g : StateGraph) (fuel : nat) (current : string)
    (s : RAGState) (w : W) : list Event * result RAGState :=
  match fuel with
  | O => ([], Err (Error "Recursion limit reached."))
  | S fuel' =>
      match lookup current (edges g) with
      | None => ([], Err (Error "No edge leaves the current node."))
      | Some target =>
          if String.eqb target END then ([], Ok s)
          else
            match lookup target (registered g) with
            | None => ([], Err (Error "Edge to an unknown node."))
            | Some fn =>
                let out := fn s w in
                let here := {| ev_node := target; ev_in := s; ev_out := out |} in
                match out with
                | Err e => ([here], Err e)
                | Ok s' =>
                    let (later, final) := walk g fuel' target s' w in
                    (here :: later, final)
                end
            end
      end
  end.

Definition recursionLimit : nat := 25.

Definition trace (g : StateGraph) (s : RAGState) (w : W) : list Event :=
  fst (walk g recursionLimit START s w).

Definition invoke (g : StateGraph) (s : RAGState) (w : W) : result RAGState :=
  snd (walk g recursionLimit START s w).

End StateGraph.

Arguments newStateGraph {W} chans.
Arguments lookup {A} key table.

(** ** The external collaborators *)

Record Externals : Type := mkExternals {
  (** the state of the outside world the collaborators read and write
      (the Chroma server, the file system) *)
  World : Type;
  (** [new PDFLoader(path).load()] *)
  pdfLoad : string -> World -> result (list Document);
  (** [new RecursiveCharacterTextSplitter({chunkSize, chunkOverlap})
      .splitDocuments(docs)] *)
  splitterSplitDocuments : nat -> nat -> list Document -> result (list Document);
  (** [Chroma.fromDocuments(docs, embeddings, dbConfig)] *)
  chromaFromDocuments :
    list Document -> Embeddings -> ChromaArgs -> World -> result World;
  (** [Chroma.fromExistingCollection(embeddings, dbConfig)] followed by
      [asRetriever()]: the retriever maps a query to ranked documents *)
  chromaFromExistingCollection :
    Embeddings -> ChromaArgs -> World ->
    result (string -> World -> result (list Document));
  (** [model.invoke(promptValue)] *)
  modelInvoke : ModelOptions -> PromptValue -> World -> result string;
  (** [graphBuilder.compile()]: the runnable of a state graph *)
  graphCompile : StateGraph World -> result (RAGState -> World -> result RAGState)
}.

(** ** IngestionService *)

Module IngestionService.
Section WithExternals.
Variable E : Externals.

Definition COLLECTION_NAME : string := "test_collection_name".
Definition VECTOR_STORE_PATH : string := "chroma_data".

(** The [dbConfig] of [embedAndStore]. *)
Definition storeArgs : ChromaArgs :=
  {| collectionName := COLLECTION_NAME;
     url := "http://host.docker.internal:8000" |}.

Definition loadDocuments (w : World E) : result (list Document) :=
  pdfDocs <- pdfLoad E "./documents/assignment_guide.pdf" w ;;
  Ok pdfDocs.

Definition splitDocuments (docs : list Document) : result (list Document) :=
  splitDocs <- splitterSplitDocuments E 1000 200 docs ;;
  Ok splitDocs.

Definition embedAndStore (docs : list Document) (w : World E) : result (World E) :=
  chromaFromDocuments E docs OpenAIEmbeddings storeArgs w.

(** The success summary of [runIngestion]. *)
Definition summary (chunks : nat) : string :=
  "✅ Ingestion Complete! " ++ numberToString chunks
    ++ " chunks stored in ChromaDB at " ++ VECTOR_STORE_PATH ++ ".".

(** [runIngestion]: the summary, and the world after the store write. *)
Definition runIngestion (w : World E) : result (string * World E) :=
  docs <- loadDocuments w ;;
  splitDocs <- splitDocuments docs ;;
  w' <- embedAndStore splitDocs w ;;
  Ok (summary (List.length splitDocs), w').

End WithExternals.
End IngestionService.

(** ** ChatService *)

(** Modelled from the spec: the rendering of a prompt template string
    (section 4.3); [ChatPromptTemplate] is a library class, not part of the
    sources.  Every [{name}] of the template is replaced by the value given
    for [name], in a single pass over the template; [pending] holds the name
    being read after an opening brace.  An inserted value is not scanned
    again, so it appears verbatim. *)
Fixpoint renderTemplate (values : list (string * string)) (template : string)
    (pending : option string) : result string :=
  match template with
  | EmptyString =>
      match pending with
      | None => Ok EmptyString
      | Some _ => Err (Error "Unclosed '{' in template.")
      end
  | String c rest =>
      match pending with
      | None =>
          if Ascii.eqb c "{"%char then renderTemplate values rest (Some EmptyString)
          else
            tail <- renderTemplate values rest None ;;
            Ok (String c tail)
      | Some name =>
          if Ascii.eqb c "}"%char then
            match lookup name values with
            | None => Err (Error ("Missing value for input " ++ name))
            | Some v =>
                tail <- renderTemplate values rest None ;;
                Ok (v ++ tail)
            end
          else renderTemplate values rest (Some (name ++ String c EmptyString))
      end
  end.

(** Modelled from the spec: [promptTemplate.invoke(values)] of the same
    library class; every message template is rendered, in order, under its
    role. *)
Fixpoint formatMessages (messages : list (string * string))
    (values : list (string * string)) : result PromptValue :=
  match messages with
  | [] => Ok []
  | (role, template) :: rest =>
      content <- renderTemplate values template None ;;
      others <- formatMessages rest values ;;
      Ok ((role, content) :: others)
  end.

Module ChatService.
Section WithExternals.
Variable E : Externals.

Definition Retriever : Type := string -> World E -> result (list Document).
Definition Runnable : Type := RAGState -> World E -> result RAGState.

(** The private fields of the service. *)
Record t : Type := mkService {
  retriever : option Retriever;
  model : ModelOptions;
  graph : option Runnable
}.

Definition COLLECTION_NAME : string := "test_collection_name".
Definition VECTOR_STORE_PATH : string := "./chroma_data".

(** The field initialisers and the constructor. *)
Definition construct : t :=
  {| retriever := None;
     model := {| modelName := "gpt-3.5-turbo-instruct"; temperature := 0 |};
     graph := None |}.

(** The [dbConfig] of [initializeRetriever]. *)
Definition storeArgs : ChromaArgs :=
  {| collectionName := COLLECTION_NAME;
     url := "http://host.docker.internal:8000" |}.

(** [initializeRetriever]: the service afterwards, and whether it threw. *)
Definition initializeRetriever (svc : t) (w : World E) : t * result unit :=
  match chromaFromExistingCollection E OpenAIEmbeddings storeArgs w with
  | Err e => (svc, Err e)
  | Ok r =>
      ({| retriever := Some r; model := model svc; graph := graph svc |}, Ok tt)
  end.

(** The fixed refusal sentence of the system instruction. *)
Definition refusal : string :=
  "죄송하지만, 제가 참조할 수 있는 문서에서는 해당 내용을 찾을 수 없습니다.".

(** The part of the system message before the context. *)
Definition systemInstruction : string :=
  "당신은 제공된 문서를 참조하여 사용자의 질문에 답변하는 전문가 챗봇입니다. "
  ++ "사용자에게 제공된 <Context> 내에서만 답변해야 합니다. "
  ++ "만약 <Context>에서 답변을 찾을 수 없다면, "
  ++ "**" ++ DQUOTE ++ refusal ++ DQUOTE ++ "**라고 답변하세요."
  ++ LF ++ LF ++ "<Context>" ++ LF.

Definition promptTemplate : list (string * string) :=
  [ ("system", systemInstruction ++ "{context}" ++ LF ++ "</Context>");
    ("human", "{question}") ].

(** The messages expected of the template for a context and a question:
    the system instruction with the context inside the [<Context>] block,
    then the question as the human turn. *)
Definition rendered (context q : string) : PromptValue :=
  [ ("system", systemInstruction ++ context ++ LF ++ "</Context>");
    ("human", q) ].

(** The first step of [ragChain]: the retrieved documents formatted into
    one string, and the question. *)
Definition chainInput (input : RAGState) : list (string * string) :=
  [ ("context", join (LF ++ LF) (map pageContent (documents input)));
    ("question", question input) ].

(** [ragChain.invoke(input)]: format, prompt, model, [StringOutputParser]
    (the identity on the model's string). *)
Definition ragChain (svc : t) (input : RAGState) (w : World E) : result string :=
  prompt <- formatMessages promptTemplate (chainInput input) ;;
  completion <- modelInvoke E (model svc) prompt w ;;
  Ok completion.

(** The [retrieve] node.  [this.retriever] is assigned by
    [initializeRetriever] only, which [onModuleInit] awaits before the nodes
    are created, so the node sees the field as it is in [svc]. *)
Definition retrieve (svc : t) (state : RAGState) (w : World E) : result RAGState :=
  match retriever svc with
  | None => Err (Error "Cannot read properties of null (reading 'invoke')")
  | Some r =>
      docs <- r (question state) w ;;
      Ok {| question := question state; documents := docs; answer := answer state |}
  end.

(** The [generate] node. *)
Definition generate (svc : t) (state : RAGState) (w : World E) : result RAGState :=
  answer' <- ragChain svc
    {| question := question state;
       documents := documents state;
       answer := orElse (answer state) "" |} w ;;
  Ok {| question := question state; documents := documents state; answer := answer' |}.

(** The [nodes] object of [initializeGraph]. *)
Definition nodes (svc : t) : list (string * NodeFn (World E)) :=
  [ ("retrieve", retrieve svc); ("generate", generate svc) ].

(** The builder as [initializeGraph] leaves it before [compile()]: three
    [addEdge] calls; [nodes] is not handed to it. *)
Definition graphBuilder : StateGraph (World E) :=
  addEdge "generate" END
    (addEdge "retrieve" "generate"
      (addEdge START "retrieve"
        (newStateGraph ["question"; "documents"; "answer"]))).

Definition initializeGraph (svc : t) : t * result unit :=
  match graphCompile E graphBuilder with
  | Err e => (svc, Err e)
  | Ok g =>
      ({| retriever := retriever svc; model := model svc; graph := Some g |}, Ok tt)
  end.

Definition onModuleInit (svc : t) (w : World E) : t * result unit :=
  match initializeRetriever svc w with
  | (svc1, Err e) => (svc1, Err e)
  | (svc1, Ok _) => initializeGraph svc1
  end.

Definition placeholder : string := "답변을 생성하지 못하였습니다.".

Definition initialState (q : string) : RAGState :=
  {| question := q; documents := []; answer := "" |}.

Definition chat (svc : t) (q : string) (w : World E) : result string :=
  match graph svc with
  | None => Err (Error "Chat graph not initialized.")
  | Some g =>
      final <- g (initialState q) w ;;
      Ok (orElse (answer final) placeholder)
  end.

End WithExternals.
End ChatService.

(** ** The text splitter of the library *)

(** The splitting algorithm is the library's [RecursiveCharacterTextSplitter];
    the sources only construct it with [chunkSize: 1000, chunkOverlap: 200].
    A JavaScript string is a sequence of UTF-16 code units and the splitter
    measures lengths in them, so the module works on code units; the strings
    of the embedding hold the UTF-8 bytes of the same text. *)
Module TextSplitter.

Definition Text : Type := list N.

(** *** Between the strings of the embedding and code units *)

Fixpoint bytesOf (s : string) : list N :=
  match s with
  | EmptyString => []
  | String c rest => N_of_ascii c :: bytesOf rest
  end.

Fixpoint stringOf (bytes : list N) : string :=
  match bytes with
  | [] => EmptyString
  | b :: rest => String (ascii_of_N b) (stringOf rest)
  end.

(** The code points of a UTF-8 byte sequence; [need] continuation bytes are
    still expected for the code point accumulated in [acc].  A byte that does
    not fit decodes to U+FFFD. *)
Fixpoint decodeUtf8 (bytes : list N) (need : nat) (acc : N) : list N :=
  match bytes with
  | [] => match need with O => [] | S _ => [65533%N] end
  | b :: rest =>
      match need with
      | O =>
          if (b <? 128)%N then b :: decodeUtf8 rest 0 0%N
          else if ((192 <=? b) && (b <? 224))%N then decodeUtf8 rest 1 (b - 192)%N
          else if ((224 <=? b) && (b <? 240))%N then decodeUtf8 rest 2 (b - 224)%N
          else if ((240 <=? b) && (b <? 248))%N then decodeUtf8 rest 3 (b - 240)%N
          else 65533%N :: decodeUtf8 rest 0 0%N
      | S k =>
          if ((128 <=? b) && (b <? 192))%N then
            let acc' := (acc * 64 + (b - 128))%N in
            match k with
            | O => acc' :: decodeUtf8 rest 0 0%N
            | S _ => decodeUtf8 rest k acc'
            end
          else 65533%N :: decodeUtf8 rest 0 0%N
      end
  end.

(** The UTF-16 code units of a code point. *)
Definition unitsOfCodePoint (cp : N) : list N :=
  if (cp <? 65536)%N then [cp]
  else [ (55296 + (cp - 65536) / 1024)%N; (56320 + (cp - 65536) mod 1024)%N ].

(** The code units of a string of the embedding. *)
Definition utf16 (s : string) : Text :=
  flat_map unitsOfCodePoint (decodeUtf8 (bytesOf s) 0 0%N).

Definition isHighSurrogate (u : N) : bool := ((55296 <=? u) && (u <? 56320))%N.
Definition isLowSurrogate (u : N) : bool := ((56320 <=? u) && (u <? 57344))%N.

(** The code points of a sequence of code units; a surrogate without its
    partner reads as U+FFFD. *)
Fixpoint codePoints (t : Text) : list N :=
  match t with
  | [] => []
  | u :: rest =>
      if isHighSurrogate u then
        match rest with
        | l :: rest' =>
            if isLowSurrogate l
            then (65536 + (u - 55296) * 1024 + (l - 56320))%N :: codePoints rest'
            else 65533%N :: codePoints rest
        | [] => [65533%N]
        end
      else if isLowSurrogate u then 65533%N :: codePoints rest
      else u :: codePoints rest
  end.

Definition utf8OfCodePoint (cp : N) : list N :=
  if (cp <? 128)%N then [cp]
  else if (cp <? 2048)%N then [ (192 + cp / 64)%N; (128 + cp mod 64)%N ]
  else if (cp <? 65536)%N then
    [ (224 + cp / 4096)%N; (128 + (cp / 64) mod 64)%N; (128 + cp mod 64)%N ]
  else
    [ (240 + cp / 262144)%N; (128 + (cp / 4096) mod 64)%N;
      (128 + (cp / 64) mod 64)%N; (128 + cp mod 64)%N ].

(** The string of the embedding for a sequence of code units. *)
Definition utf8 (t : Text) : string :=
  stringOf (flat_map utf8OfCodePoint (codePoints t)).

(** *** [String.prototype] operations on code units *)

Definition isEmpty (t : Text) : bool :=
  match t with [] => true | _ :: _ => false end.

(** White space and line terminators, the characters [trim] removes. *)
Definition isWhiteSpace (u : N) : bool :=
  ((9 <=? u) && (u <=? 13) || (u =? 32) || (u =? 160) || (u =? 5760)
   || (8192 <=? u) && (u <=? 8202) || (u =? 8232) || (u =? 8233)
   || (u =? 8239) || (u =? 8287) || (u =? 12288) || (u =? 65279))%N.

Fixpoint trimStart (t : Text) : Text :=
  match t with
  | [] => []
  | u :: rest => if isWhiteSpace u then trimStart rest else t
  end.

Definition trimEnd (t : Text) : Text := rev (trimStart (rev t)).

Definition trim (t : Text) : Text := trimEnd (trimStart t).

Fixpoint startsWith (prefix t : Text) : bool :=
  match prefix, t with
  | [], _ => true
  | _ :: _, [] => false
  | p :: prefix', u :: t' => (p =? u)%N && startsWith prefix' t'
  end.

Fixpoint includes (needle t : Text) : bool :=
  match t with
  | [] => startsWith needle []
  | _ :: rest => startsWith needle t || includes needle rest
  end.

(** [docs.join(separator)]. *)
Fixpoint joinTexts (separator : Text) (docs : list Text) : Text :=
  match docs with
  | [] => []
  | [d] => d
  | d :: rest => (d ++ separator ++ joinTexts separator rest)%list
  end.

(** *** [TextSplitter] *)

(** [text.split(new RegExp("(?=separator)"))]: the text is cut in front of
    every occurrence of the separator except one at its very start, so a
    piece after the first opens with the separator.  [current] is the piece
    being read. *)
Fixpoint splitBefore (separator remaining current : Text) : list Text :=
  match remaining with
  | [] => [current]
  | u :: rest =>
      if startsWith separator remaining && negb (isEmpty current)
      then current :: splitBefore separator rest [u]
      else splitBefore separator rest (current ++ [u])%list
  end.

(** Modelled from the spec: [splitOnSeparator] of the library's splitter
    (section 4.1; the library is not part of the sources), with
    [keepSeparator] set as [RecursiveCharacterTextSplitter] sets it.  The
    empty separator splits into single code units; empty pieces are
    dropped. *)
Definition splitOnSeparator (text separator : Text) : list Text :=
  filter (fun piece => negb (isEmpty piece))
    match separator with
    | [] => map (fun u => [u]) text
    | _ :: _ => splitBefore separator text []
    end.

(** Modelled from the spec: [joinDocs] of the library's splitter: the pieces
    joined and trimmed of surrounding white space; nothing when only white
    space is left. *)
Definition joinDocs (docs : list Text) (separator : Text) : option Text :=
  let joined := trim (joinTexts separator docs) in
  if isEmpty joined then None else Some joined.

Definition pushDoc (doc : option Text) (later : list Text) : list Text :=
  match doc with
  | Some d => d :: later
  | None => later
  end.

(** The inner loop of [mergeSplits]: pieces are dropped from the front of
    [currentDoc] while more than [chunkOverlap] code units are held, or while
    the next piece, of length [len], still does not fit.  [total] is the
    number of code units held, so the loop has stopped when [currentDoc] is
    empty. *)
Fixpoint shiftWhile (chunkSize chunkOverlap len separatorLength : nat)
    (currentDoc : list Text) (total : nat) {struct currentDoc}
    : list Text * nat :=
  if Nat.ltb chunkOverlap total
     || (Nat.ltb chunkSize (total + len + List.length currentDoc * separatorLength)
         && Nat.ltb 0 total)
  then
    match currentDoc with
    | [] => ([], total)
    | first :: rest =>
        shiftWhile chunkSize chunkOverlap len separatorLength rest
          (total - List.length first)
    end
  else (currentDoc, total).

(** The outer loop of [mergeSplits] over the pieces still to place. *)
Fixpoint mergeLoop (chunkSize chunkOverlap : nat) (separator : Text)
    (splits currentDoc : list Text) (total : nat) : list Text :=
  match splits with
  | [] => pushDoc (joinDocs currentDoc separator) []
  | d :: rest =>
      let len := List.length d in
      if Nat.ltb chunkSize
           (total + len + List.length currentDoc * List.length separator)
      then
        match currentDoc with
        | [] =>
            mergeLoop chunkSize chunkOverlap separator rest [d] (total + len)
        | _ :: _ =>
            let (kept, total') :=
              shiftWhile chunkSize chunkOverlap len (List.length separator)
                currentDoc total in
            pushDoc (joinDocs currentDoc separator)
              (mergeLoop chunkSize chunkOverlap separator rest
                 (kept ++ [d])%list (total' + len))
        end
      else
        mergeLoop chunkSize chunkOverlap separator rest
          (currentDoc ++ [d])%list (total + len)
  end.

(** Modelled from the spec: [mergeSplits] of the library's splitter, the
    greedy packing of section 4.1.  Pieces are gathered while they fit within
    [chunkSize]; when the next one does not fit the gathered pieces become a
    chunk, and their tail of at most [chunkOverlap] code units stays as the
    start of the next chunk. *)
Definition mergeSplits (chunkSize chunkOverlap : nat) (splits : list Text)
    (separator : Text) : list Text :=
  mergeLoop chunkSize chunkOverlap separator splits [] 0.

(** [if (goodSplits.length) mergeSplits(goodSplits, "")]: the gathered pieces
    merged, with the empty separator that [keepSeparator] selects. *)
Definition mergeGood (chunkSize chunkOverlap : nat) (goodSplits : list Text)
    : list Text :=
  match goodSplits with
  | [] => []
  | _ :: _ => mergeSplits chunkSize chunkOverlap goodSplits []
  end.

(** The loop of [_splitText] over the pieces of one separator level: pieces
    shorter than [chunkSize] are gathered in [goodSplits] and merged; a longer
    piece is split by [finer], the next separator level, or kept whole when
    there is none. *)
Fixpoint splitLoop (chunkSize chunkOverlap : nat)
    (finer : option (Text -> list Text)) (splits goodSplits : list Text)
    : list Text :=
  match splits with
  | [] => mergeGood chunkSize chunkOverlap goodSplits
  | s :: rest =>
      if Nat.ltb (List.length s) chunkSize
      then splitLoop chunkSize chunkOverlap finer rest (goodSplits ++ [s])%list
      else
        (mergeGood chunkSize chunkOverlap goodSplits
         ++ match finer with
            | None => [s]
            | Some split => split s
            end
         ++ splitLoop chunkSize chunkOverlap finer rest [])%list
  end.

(** Modelled from the spec: [_splitText] of the library's
    [RecursiveCharacterTextSplitter], the recursion of section 4.1 over the
    descending list of separators.  The first separator that is empty or
    occurs in the text is used; the separators after it serve for the pieces
    that are still too long.  When none occurs the last one is used. *)
Fixpoint splitTextWith (chunkSize chunkOverlap : nat) (separators : list Text)
    (text : Text) : list Text :=
  match separators with
  | [] =>
      splitLoop chunkSize chunkOverlap None (splitOnSeparator text []) []
  | separator :: later =>
      if isEmpty separator then
        splitLoop chunkSize chunkOverlap None
          (splitOnSeparator text separator) []
      else if includes separator text then
        splitLoop chunkSize chunkOverlap
          (Some (splitTextWith chunkSize chunkOverlap later))
          (splitOnSeparator text separator) []
      else
        match later with
        | [] =>
            splitLoop chunkSize chunkOverlap None
              (splitOnSeparator text separator) []
        | _ :: _ => splitTextWith chunkSize chunkOverlap later text
        end
  end.

(** The separators of [RecursiveCharacterTextSplitter]: paragraph break, line
    break, space, and the empty separator. *)
Definition defaultSeparators : list Text :=
  [ [10%N; 10%N]; [10%N]; [32%N]; [] ].

(** [splitText(text)]. *)
Definition splitText (chunkSize chunkOverlap : nat) (text : Text) : list Text :=
  splitTextWith chunkSize chunkOverlap defaultSeparators text.


(** Modelled from the spec: [splitDocuments(docs)] of the library's splitter,
    as far as page contents go: every chunk becomes a document with the
    metadata of the document it comes from (the line numbers the library adds
    to the metadata are left out).  The constructor refuses an overlap that
    is not smaller than the chunk size. *)
Definition splitDocuments (chunkSize chunkOverlap : nat) (docs : list Document)
    : result (list Document) :=
  if Nat.leb chunkSize chunkOverlap
  then Err (Error "Cannot have chunkOverlap >= chunkSize")
  else
    Ok (flat_map
          (fun d =>
             map (fun chunk =>
                    {| pageContent := utf8 chunk; metadata := metadata d |})
               (splitText chunkSize chunkOverlap (utf16 (pageContent d))))
          docs).


End TextSplitter.

(** ** The points of [onModuleInit] before it has completed *)

(** The service as constructed, the service once [initializeRetriever] has
    returned or thrown, and the service left behind by an [onModuleInit] that
    threw. *)
Inductive Initializing (E : Externals) : ChatService.t E -> Prop :=
| init_constructed :
    Initializing (ChatService.construct E)
| init_retriever_step : forall w,
    Initializing (fst (ChatService.initializeRetriever (ChatService.construct E) w))
| init_aborted : forall w e,
    snd (ChatService.onModuleInit (ChatService.construct E) w) = Err e ->
    Initializing (fst (ChatService.onModuleInit (ChatService.construct E) w)).

(** ** In-memory collaborators *)

(** Stand-ins for the collaborators, used to run the services on concrete
    inputs: the world is the rows [(collection, document)] of one store. *)
Module InMemory.

Definition Rows : Type := list (string * Document).

Definition rowsOf (collection : string) (w : Rows) : list Document :=
  map snd (filter (fun row => String.eqb (fst row) collection) w).

(** The model's stand-in answers with the human turn of its prompt. *)
Definition echo (prompt : PromptValue) : string :=
  match lookup "human" prompt with
  | Some q => q
  | None => EmptyString
  end.

Definition externals (onDisk : list Document) : Externals :=
  {| World := Rows;
     pdfLoad := fun _ _ => Ok onDisk;
     splitterSplitDocuments := fun size overlap docs =>
       TextSplitter.splitDocuments size overlap docs;
     chromaFromDocuments := fun docs _ args w =>
       Ok (w ++ map (pair (collectionName args)) docs)%list;
     chromaFromExistingCollection := fun _ args _ =>
       Ok (fun _ w => Ok (rowsOf (collectionName args) w));
     modelInvoke := fun _ prompt _ => Ok (echo prompt);
     graphCompile := fun g => Ok (invoke g) |}.

Definition paris : Document :=
  {| pageContent := "Paris is the capital of France."; metadata := [] |}.


(** A service whose retriever is bound and whose graph runs the two nodes. *)
Definition readyService (E : Externals)
    (r : ChatService.Retriever E) : ChatService.t E :=
  let bound :=
    {| ChatService.retriever := Some r;
       ChatService.model := ChatService.model (ChatService.construct E);
       ChatService.graph := None |} in
  {| ChatService.retriever := Some r;
     ChatService.model := ChatService.model bound;
     ChatService.graph :=
       Some (invoke (addNodes (ChatService.nodes bound)
                              (ChatService.graphBuilder E))) |}.

End InMemory.

(** ** AppController *)

Module AppController.
Section WithExternals.
Variable E : Externals.

(** [@Get('ingest') ingestDocuments()]: the handler returns what
    [runIngestion] returns. *)
Definition ingestDocuments (w : World E) : result (string * World E) :=
  IngestionService.runIngestion E w.

End WithExternals.
End AppController.

(** ** Collaborators that fail on demand *)

(** The in-memory stand-ins with a switch per collaborator: a switch set to
    [Some e] makes the collaborator throw [e]. *)
Module Faulty.

Record Faults : Type := mkFaults {
  loadFault : option exn;
  splitFault : option exn;
  storeFault : option exn;
  bindFault : option exn;
  searchFault : option exn;
  modelFault : option exn;
  compileFault : option exn
}.

Definition noFault : Faults :=
  {| loadFault := None; splitFault := None; storeFault := None;
     bindFault := None; searchFault := None; modelFault := None;
     compileFault := None |}.

Definition unless {A : Type} (fault : option exn) (a : A) : result A :=
  match fault with
  | Some e => Err e
  | None => Ok a
  end.

Definition externals (f : Faults) (onDisk : list Document) : Externals :=
  {| World := InMemory.Rows;
     pdfLoad := fun _ _ => unless (loadFault f) onDisk;
     splitterSplitDocuments := fun size overlap docs =>
       match splitFault f with
       | Some e => Err e
       | None => TextSplitter.splitDocuments size overlap docs
       end;
     chromaFromDocuments := fun docs _ args w =>
       unless (storeFault f) (w ++ map (pair (collectionName args)) docs)%list;
     chromaFromExistingCollection := fun _ args _ =>
       unless (bindFault f)
         (fun _ w => unless (searchFault f)
                       (InMemory.rowsOf (collectionName args) w));
     modelInvoke := fun _ prompt _ => unless (modelFault f) (InMemory.echo prompt);
     graphCompile := fun g => unless (compileFault f) (invoke g) |}.

End Faulty.

(** * Properties *)

(** ** The result monad *)

Lemma bind_ok {A B : Type} (a : A) (k : A -> result B) :
  bind (Ok a) k = k a.
Proof. reflexivity. Qed.

Lemma bind_err {A B : Type} (e : exn) (k : A -> result B) :
  bind (Err e) k = Err e.
Proof. reflexivity. Qed.

Lemma bind_ret {A : Type} (m : result A) :
  bind m (fun a => Ok a) = m.
Proof. destruct m; reflexivity. Qed.

Lemma bind_succeeded {A B : Type} (m : result A) (k : A -> result B) (b : B) :
  bind m k = Ok b -> exists a, m = Ok a /\ k a = Ok b.
Proof.
  destruct m as [a | e]; simpl; intros H.
  - exists a. split; [reflexivity | exact H].
  - discriminate H.
Qed.

Lemma orElse_spec (a b : string) :
  orElse a b = if String.eqb a "" then b else a.
Proof. destruct a; reflexivity. Qed.

(** ** Ingestion *)

Section IngestionProperties.
Variable E : Externals.

Import IngestionService.

Lemma loadDocuments_is_load (w : World E) :
  loadDocuments E w = pdfLoad E "./documents/assignment_guide.pdf" w.
Proof. unfold loadDocuments. apply bind_ret. Qed.

Lemma splitDocuments_is_split (docs : list Document) :
  splitDocuments E docs = splitterSplitDocuments E 1000 200 docs.
Proof. unfold splitDocuments. apply bind_ret. Qed.

(** [runIngestion] has no failure of its own: it succeeds exactly when the
    three collaborators do. *)
Lemma runIngestion_succeeds_iff (w : World E) :
  succeeded (runIngestion E w) = true <->
  exists docs chunks w',
    loadDocuments E w = Ok docs /\
    splitDocuments E docs = Ok chunks /\
    embedAndStore E chunks w = Ok w'.
Proof.
  unfold runIngestion. split.
  - destruct (loadDocuments E w) as [docs | e]; simpl; [ | discriminate].
    destruct (splitDocuments E docs) as [chunks | e] eqn:Hsplit; simpl;
      [ | discriminate].
    destruct (embedAndStore E chunks w) as [w' | e] eqn:Hstore; simpl;
      [ | discriminate].
    intros _. exists docs, chunks, w'. auto.
  - intros (docs & chunks & w' & Hl & Hs & Hw).
    rewrite Hl; simpl. rewrite Hs; simpl. rewrite Hw; reflexivity.
Qed.

End IngestionProperties.

(** C1, as amended.  When the document source yields zero documents,
    [runIngestion] raises no error of its own: it hands the empty list to the
    splitter and the splitter's chunks to the store write, and returns the
    success summary with that chunk count; when the splitter returns no chunk
    for no document, the store write receives an empty list and the summary
    reports 0 chunks.  The run fails only with the error of the splitter or of
    the store write. *)
Theorem runIngestion_empty_source (E : Externals) (w : World E) :
  IngestionService.loadDocuments E w = Ok [] ->
  IngestionService.runIngestion E w =
    (chunks <- splitterSplitDocuments E 1000 200 [] ;;
     w' <- chromaFromDocuments E chunks OpenAIEmbeddings
             IngestionService.storeArgs w ;;
     Ok (IngestionService.summary (List.length chunks), w'))
  /\ (splitterSplitDocuments E 1000 200 [] = Ok [] ->
      IngestionService.runIngestion E w =
        (w' <- chromaFromDocuments E [] OpenAIEmbeddings
                 IngestionService.storeArgs w ;;
         Ok ("✅ Ingestion Complete! 0 chunks stored in ChromaDB at chroma_data.",
             w'))).
Proof.
  intros Hload.
  assert (Hrun : IngestionService.runIngestion E w =
    (chunks <- splitterSplitDocuments E 1000 200 [] ;;
     w' <- chromaFromDocuments E chunks OpenAIEmbeddings
             IngestionService.storeArgs w ;;
     Ok (IngestionService.summary (List.length chunks), w'))).
  { unfold IngestionService.runIngestion. rewrite Hload. simpl.
    rewrite splitDocuments_is_split.
    destruct (splitterSplitDocuments E 1000 200 []); reflexivity. }
  split; [exact Hrun | ].
  intros Hsplit. rewrite Hrun, Hsplit. reflexivity.
Qed.

Lemma runIngestion_empty_source_witness :
  let E := InMemory.externals [] in
  IngestionService.loadDocuments E [] = Ok [] /\
  IngestionService.runIngestion E [] =
    (chunks <- splitterSplitDocuments E 1000 200 [] ;;
     w' <- chromaFromDocuments E chunks OpenAIEmbeddings
             IngestionService.storeArgs [] ;;
     Ok (IngestionService.summary (List.length chunks), w')).
Proof.
  intros E. split.
  - reflexivity.
  - exact (proj1 (runIngestion_empty_source E ([] : World E) eq_refl)).
Defined.

(** C1, as stated, fails: with a source that yields zero documents and
    collaborators that do not fail, [runIngestion] returns the success
    summary. *)
Lemma runIngestion_empty_source_succeeds :
  let E := InMemory.externals [] in
  IngestionService.loadDocuments E [] = Ok [] /\
  IngestionService.runIngestion E [] =
    Ok ("✅ Ingestion Complete! 0 chunks stored in ChromaDB at chroma_data.", []).
Proof. split; reflexivity. Qed.

(** ** The chat service: initialisation and the [chat] entry point *)

Section InitializationProperties.
Variable E : Externals.

Import ChatService.

Lemma initializeRetriever_keeps_graph (svc : t E) (w : World E) :
  graph (fst (initializeRetriever svc w)) = graph svc.
Proof.
  unfold initializeRetriever.
  destruct (chromaFromExistingCollection E OpenAIEmbeddings (storeArgs) w);
    reflexivity.
Qed.

Lemma initializeGraph_failure_keeps_graph (svc : t E) (e : exn) :
  snd (initializeGraph svc) = Err e ->
  graph (fst (initializeGraph svc)) = graph svc.
Proof.
  unfold initializeGraph.
  destruct (graphCompile E (graphBuilder E)); simpl.
  - discriminate.
  - reflexivity.
Qed.

(** The graph field stays unset at every point before [onModuleInit] has
    completed. *)
Lemma initializing_graph_unset (svc : t E) :
  Initializing svc -> graph svc = None.
Proof.
  intros H. destruct H as [ | w | w e Hfail].
  - reflexivity.
  - rewrite initializeRetriever_keeps_graph. reflexivity.
  - revert Hfail. unfold onModuleInit.
    pose proof (initializeRetriever_keeps_graph (construct E) w) as Hkeep.
    destruct (initializeRetriever (construct E) w) as [svc1 [[] | e1]];
      simpl in *.
    + intros Hfail.
      rewrite (initializeGraph_failure_keeps_graph svc1 Hfail). exact Hkeep.
    + intros _. exact Hkeep.
Qed.

(** [onModuleInit] binds the retriever first and sets the graph last. *)
Lemma onModuleInit_completed (w : World E) (svc : t E) :
  onModuleInit (construct E) w = (svc, Ok tt) ->
  exists r g,
    chromaFromExistingCollection E OpenAIEmbeddings storeArgs w = Ok r /\
    graphCompile E (graphBuilder E) = Ok g /\
    retriever svc = Some r /\ graph svc = Some g.
Proof.
  unfold onModuleInit, initializeRetriever, initializeGraph.
  destruct (chromaFromExistingCollection E OpenAIEmbeddings storeArgs w)
    as [r | e]; simpl; [ | discriminate].
  destruct (graphCompile E (graphBuilder E)) as [g | e]; simpl;
    [ | discriminate].
  intros H. inversion H; subst; clear H.
  exists r, g. auto.
Qed.

End InitializationProperties.

(** C3.  At every point before [onModuleInit] has completed (the service as
    constructed, the service after the retriever step, the service left by an
    initialisation that threw), [chat] returns no answer: it fails with the
    error ['Chat graph not initialized.'], whatever the question. *)
Theorem chat_before_initialization_fails
    (E : Externals) (svc : ChatService.t E) (q : string) (w : World E) :
  Initializing svc ->
  ChatService.chat svc q w = Err (Error "Chat graph not initialized.").
Proof.
  intros Hinit. unfold ChatService.chat.
  rewrite (initializing_graph_unset Hinit). reflexivity.
Qed.

Lemma chat_before_initialization_fails_witness :
  let E := InMemory.externals [InMemory.paris] in
  let svc := fst (ChatService.initializeRetriever (ChatService.construct E) []) in
  Initializing svc /\
  ChatService.chat svc "What is the capital of France?" [] =
    Err (Error "Chat graph not initialized.").
Proof.
  intros E svc. split.
  - exact (init_retriever_step E []).
  - exact (chat_before_initialization_fails
             "What is the capital of France?" ([] : World E)
             (init_retriever_step E [])).
Defined.

(** C4.  With the compiled graph [g] in place, [chat] runs [g] on the fresh
    state [{question, documents: [], answer: ''}] and returns the answer of the
    final state, or the fixed placeholder when that answer is empty; a failure
    of the run is the failure of [chat]. *)
Theorem chat_returns_answer_or_placeholder
    (E : Externals) (svc : ChatService.t E) (g : ChatService.Runnable E)
    (q : string) (w : World E) :
  ChatService.graph svc = Some g ->
  ChatService.chat svc q w =
    match g {| question := q; documents := []; answer := "" |} w with
    | Ok final =>
        Ok (if String.eqb (answer final) ""
            then "답변을 생성하지 못하였습니다."
            else answer final)
    | Err e => Err e
    end.
Proof.
  intros Hg. unfold ChatService.chat, ChatService.initialState. rewrite Hg.
  destruct (g _ w) as [final | e]; simpl; [ | reflexivity].
  rewrite orElse_spec. reflexivity.
Qed.

Lemma chat_returns_answer_or_placeholder_witness :
  let E := InMemory.externals [] in
  let svc := InMemory.readyService (E := E) (fun _ w => Ok (InMemory.rowsOf "c" w)) in
  (exists g, ChatService.graph svc = Some g) /\
  ChatService.chat svc "" [] = Ok "답변을 생성하지 못하였습니다." /\
  ChatService.chat svc "capital?" [] = Ok "capital?".
Proof.
  intros E svc. split; [ | split].
  - eexists. reflexivity.
  - rewrite (@chat_returns_answer_or_placeholder E svc _ "" [] eq_refl).
    reflexivity.
  - rewrite (@chat_returns_answer_or_placeholder E svc _ "capital?" [] eq_refl).
    reflexivity.
Defined.

(** ** Prompt assembly and the two nodes *)

Lemma join_cons (sep p q : string) (rest : list string) :
  join sep (p :: q :: rest) = p ++ sep ++ join sep (q :: rest).
Proof. reflexivity. Qed.

Lemma string_length_append (a b : string) :
  String.length (a ++ b) = String.length a + String.length b.
Proof. induction a as [ | c a IH]; simpl; [reflexivity | now rewrite IH]. Qed.

Lemma string_append_empty (a : string) : a ++ "" = a.
Proof. induction a as [ | c a IH]; simpl; [reflexivity | now rewrite IH]. Qed.

(** No character of the parts is lost in [join]. *)
Lemma join_length (sep : string) (parts : list string) :
  String.length (join sep parts) =
  list_sum (map String.length parts)
  + String.length sep * (List.length parts - 1).
Proof.
  induction parts as [ | p [ | q rest] IH].
  - simpl. lia.
  - simpl. lia.
  - rewrite join_cons, !string_length_append, IH.
    unfold list_sum. cbn [map fold_right List.length].
    rewrite !Nat.sub_succ, !Nat.sub_0_r, Nat.mul_succ_r. lia.
Qed.

Section PromptProperties.
Variable E : Externals.

Import ChatService.

Lemma formatMessages_promptTemplate (context q : string) :
  formatMessages promptTemplate [("context", context); ("question", q)]
  = Ok (rendered context q).
Proof.
  unfold rendered. cbn.
  rewrite (string_append_empty q). reflexivity.
Qed.

End PromptProperties.

Section NodeProperties.
Variable E : Externals.

Import ChatService.

(** The chain hands the model the rendered prompt and returns its
    completion unchanged. *)
Lemma ragChain_prompt (svc : t E) (input : RAGState) (w : World E) :
  ragChain svc input w =
  modelInvoke E (model svc)
    (rendered (join (LF ++ LF) (map pageContent (documents input)))
              (question input)) w.
Proof.
  unfold ragChain, chainInput.
  rewrite formatMessages_promptTemplate. simpl. apply bind_ret.
Qed.

(** The chain reads the question and the documents of its input only. *)
Lemma ragChain_reads_question_documents
    (svc : t E) (i1 i2 : RAGState) (w : World E) :
  question i1 = question i2 ->
  documents i1 = documents i2 ->
  ragChain svc i1 w = ragChain svc i2 w.
Proof.
  intros Hq Hd. rewrite !ragChain_prompt, Hq, Hd. reflexivity.
Qed.

Lemma generate_unfold (svc : t E) (s : RAGState) (w : World E) :
  generate svc s w =
  match modelInvoke E (model svc)
          (rendered (join (LF ++ LF) (map pageContent (documents s)))
                    (question s)) w with
  | Ok completion =>
      Ok {| question := question s; documents := documents s;
            answer := completion |}
  | Err e => Err e
  end.
Proof.
  unfold generate. rewrite ragChain_prompt. simpl.
  destruct (modelInvoke E (model svc) _ w); reflexivity.
Qed.

End NodeProperties.

(** C5.  An empty retrieval is not an error for [generate]: on a state whose
    documents are the empty list the node renders the prompt with an empty
    context block, calls the model with it, and returns the state with the
    model's completion as answer; it fails only when the model call does. *)
Theorem generate_with_empty_retrieval
    (E : Externals) (svc : ChatService.t E) (s : RAGState) (w : World E) :
  documents s = [] ->
  ChatService.generate svc s w =
    match modelInvoke E (ChatService.model svc)
            [ ("system",
               ChatService.systemInstruction ++ "" ++ LF ++ "</Context>");
              ("human", question s) ] w with
    | Ok completion =>
        Ok {| question := question s; documents := []; answer := completion |}
    | Err e => Err e
    end.
Proof.
  intros Hempty. rewrite generate_unfold, Hempty. reflexivity.
Qed.

Lemma generate_with_empty_retrieval_witness :
  let E := InMemory.externals [] in
  let svc := ChatService.construct E in
  let s := {| question := "irrelevant question"; documents := []; answer := "" |} in
  documents s = [] /\
  ChatService.generate svc s [] =
    Ok {| question := "irrelevant question"; documents := [];
          answer := "irrelevant question" |}.
Proof.
  intros E svc s. split.
  - reflexivity.
  - rewrite (@generate_with_empty_retrieval E svc s [] eq_refl). reflexivity.
Defined.

(** C6.  The [retrieve] node calls the retriever with the question of the
    state and returns the state with [documents] replaced by the documents the
    retriever returned; [question] and [answer] are those of the input state.
    Both directions: what the retriever returns is what the node stores, and
    every state the node returns arises this way. *)
Theorem retrieve_sets_documents_only
    (E : Externals) (svc : ChatService.t E) (s : RAGState) (w : World E) :
  (forall r docs,
      ChatService.retriever svc = Some r ->
      r (question s) w = Ok docs ->
      ChatService.retrieve svc s w =
        Ok {| question := question s; documents := docs; answer := answer s |})
  /\
  (forall s',
      ChatService.retrieve svc s w = Ok s' ->
      question s' = question s /\ answer s' = answer s /\
      exists r, ChatService.retriever svc = Some r /\
                r (question s) w = Ok (documents s')).
Proof.
  unfold ChatService.retrieve. split.
  - intros r docs Hr Hdocs. rewrite Hr, Hdocs. reflexivity.
  - intros s' Hrun.
    destruct (ChatService.retriever svc) as [r | ]; [ | discriminate Hrun].
    destruct (r (question s) w) as [docs | e] eqn:Hdocs; simpl in Hrun;
      [ | discriminate Hrun].
    inversion Hrun; subst; clear Hrun. simpl.
    repeat split. exists r. split; [reflexivity | exact Hdocs].
Qed.

Lemma retrieve_sets_documents_only_witness :
  let E := InMemory.externals [] in
  let r : ChatService.Retriever E := fun _ w => Ok (InMemory.rowsOf "c" w) in
  let svc := InMemory.readyService r in
  let s := {| question := "q"; documents := []; answer := "old" |} in
  let w : World E := [("c", InMemory.paris)] in
  ChatService.retriever svc = Some r /\
  r (question s) w = Ok [InMemory.paris] /\
  ChatService.retrieve svc s w =
    Ok {| question := "q"; documents := [InMemory.paris]; answer := "old" |}.
Proof.
  intros E r svc s w. split; [reflexivity | split; [reflexivity | ]].
  exact (proj1 (@retrieve_sets_documents_only E svc s w) r [InMemory.paris]
           eq_refl eq_refl).
Defined.

(** C7.  The chain renders one system message and one human message.  The
    system message is the fixed instruction, written out below with the
    refusal sentence it quotes, followed by the [<Context>] block: the page
    contents of the documents in the order given, joined by a blank line,
    between the opening and the closing tag.  The human message is the
    question, unchanged.  Every document contributes its whole page content
    once per occurrence: nothing is re-ordered, cut or removed. *)
Theorem prompt_assembly
    (E : Externals) (svc : ChatService.t E) (input : RAGState) (w : World E) :
  let newline := String "010"%char EmptyString in
  let quote := String "034"%char EmptyString in
  let context := fun docs => join (newline ++ newline) (map pageContent docs) in
  let refusalSentence :=
    "죄송하지만, 제가 참조할 수 있는 문서에서는 해당 내용을 찾을 수 없습니다." in
  let instruction :=
    "당신은 제공된 문서를 참조하여 사용자의 질문에 답변하는 전문가 챗봇입니다. "
    ++ "사용자에게 제공된 <Context> 내에서만 답변해야 합니다. "
    ++ "만약 <Context>에서 답변을 찾을 수 없다면, "
    ++ "**" ++ quote ++ refusalSentence ++ quote ++ "**라고 답변하세요." in
  let system := fun docs =>
    instruction ++ newline ++ newline
      ++ "<Context>" ++ newline ++ context docs ++ newline ++ "</Context>" in
  formatMessages ChatService.promptTemplate (ChatService.chainInput input) =
    Ok [ ("system", system (documents input)); ("human", question input) ]
  /\ ChatService.ragChain svc input w =
       modelInvoke E (ChatService.model svc)
         [ ("system", system (documents input)); ("human", question input) ] w
  /\ ChatService.refusal = refusalSentence
  /\ ChatService.systemInstruction =
       instruction ++ newline ++ newline ++ "<Context>" ++ newline
  /\ context [] = ""
  /\ (forall d, context [d] = pageContent d)
  /\ (forall d d' rest,
        context (d :: d' :: rest) =
          pageContent d ++ newline ++ newline ++ context (d' :: rest))
  /\ String.length (context (documents input)) =
       list_sum (map (fun d => String.length (pageContent d)) (documents input))
       + 2 * (List.length (documents input) - 1).
Proof.
  intros newline quote context refusalSentence instruction system.
  assert (Hsystem :
    ChatService.rendered (context (documents input)) (question input)
    = [ ("system", system (documents input)); ("human", question input) ])
    by reflexivity.
  split; [ | split; [ | split; [ | split; [ | split; [ | split; [ | split]]]]]].
  - rewrite <- Hsystem. apply formatMessages_promptTemplate.
  - rewrite <- Hsystem. apply ragChain_prompt.
  - reflexivity.
  - reflexivity.
  - reflexivity.
  - reflexivity.
  - reflexivity.
  - unfold context. rewrite join_length, map_map, length_map. reflexivity.
Qed.

(** C10.  Two states with the same question and the same documents make
    [generate] assemble the same prompt and, the model being a function of the
    prompt, return the same result, whatever their incoming answers. *)
Theorem generate_ignores_incoming_answer
    (E : Externals) (svc : ChatService.t E) (s1 s2 : RAGState) (w : World E) :
  question s1 = question s2 ->
  documents s1 = documents s2 ->
  formatMessages ChatService.promptTemplate
    (ChatService.chainInput
       {| question := question s1; documents := documents s1;
          answer := orElse (answer s1) "" |})
  = formatMessages ChatService.promptTemplate
      (ChatService.chainInput
         {| question := question s2; documents := documents s2;
            answer := orElse (answer s2) "" |})
  /\ ChatService.generate svc s1 w = ChatService.generate svc s2 w.
Proof.
  intros Hq Hd. split.
  - unfold ChatService.chainInput. simpl. rewrite Hq, Hd. reflexivity.
  - rewrite !generate_unfold, Hq, Hd. reflexivity.
Qed.

Lemma generate_ignores_incoming_answer_witness :
  let E := InMemory.externals [] in
  let svc := ChatService.construct E in
  let s1 := {| question := "q"; documents := [InMemory.paris]; answer := "" |} in
  let s2 := {| question := "q"; documents := [InMemory.paris];
               answer := "an earlier answer" |} in
  question s1 = question s2 /\ documents s1 = documents s2 /\
  answer s1 <> answer s2 /\
  ChatService.generate svc s1 [] = ChatService.generate svc s2 [].
Proof.
  intros E svc s1 s2.
  split; [reflexivity | split; [reflexivity | split; [discriminate | ]]].
  exact (proj2 (@generate_ignores_incoming_answer E svc s1 s2 [] eq_refl eq_refl)).
Defined.

(** C8.  The store write of the ingestion path and the retriever binding of
    the query path are given the same embedding model and the same
    [dbConfig]: collection ['test_collection_name'] at
    ['http://host.docker.internal:8000'].  Both are constants of the
    services. *)
Theorem ingestion_and_chat_share_collection :
  let shared :=
    {| collectionName := "test_collection_name";
       url := "http://host.docker.internal:8000" |} in
  (forall (E : Externals) (docs : list Document) (w : World E),
      IngestionService.embedAndStore E docs w =
        chromaFromDocuments E docs OpenAIEmbeddings shared w)
  /\
  (forall (E : Externals) (svc : ChatService.t E) (w : World E),
      ChatService.initializeRetriever svc w =
        match chromaFromExistingCollection E OpenAIEmbeddings shared w with
        | Ok r =>
            ({| ChatService.retriever := Some r;
                ChatService.model := ChatService.model svc;
                ChatService.graph := ChatService.graph svc |}, Ok tt)
        | Err e => (svc, Err e)
        end)
  /\ IngestionService.storeArgs = ChatService.storeArgs.
Proof.
  intros shared. split; [ | split].
  - intros E docs w. reflexivity.
  - intros E svc w. unfold ChatService.initializeRetriever.
    destruct (chromaFromExistingCollection E OpenAIEmbeddings _ w); reflexivity.
  - reflexivity.
Qed.

(** ** The state graph *)

Section GraphProperties.
Variable E : Externals.

Import ChatService.

Lemma addNodes_edges (table : list (string * NodeFn (World E)))
    (g : StateGraph (World E)) :
  edges (addNodes table g) = edges g.
Proof.
  unfold addNodes. revert g.
  induction table as [ | entry table IH]; intros g; simpl.
  - reflexivity.
  - rewrite IH. reflexivity.
Qed.

Lemma addNodes_registered (table : list (string * NodeFn (World E)))
    (g : StateGraph (World E)) :
  registered (addNodes table g) = (registered g ++ table)%list.
Proof.
  unfold addNodes. revert g.
  induction table as [ | [name fn] table IH]; intros g; simpl.
  - now rewrite app_nil_r.
  - rewrite IH. simpl. now rewrite <- app_assoc.
Qed.

(** The edges of the graph, whatever nodes are registered:
    [START -> retrieve -> generate -> END]. *)
Lemma graph_edges (table : list (string * NodeFn (World E))) :
  edges (addNodes table (graphBuilder E)) =
  [ (START, "retrieve"); ("retrieve", "generate"); ("generate", END) ].
Proof. rewrite addNodes_edges. reflexivity. Qed.

Lemma graph_registered (table : list (string * NodeFn (World E))) :
  registered (addNodes table (graphBuilder E)) = table.
Proof. rewrite addNodes_registered. reflexivity. Qed.

(** A run of the graph, step by step: at most the node registered as
    [retrieve], then the node registered as [generate], each on the state
    the step before it left. *)
Lemma graph_walk (table : list (string * NodeFn (World E)))
    (s : RAGState) (w : World E) :
  walk (addNodes table (graphBuilder E)) recursionLimit START s w =
  match lookup "retrieve" table with
  | None => ([], Err (Error "Edge to an unknown node."))
  | Some fr =>
      let first := {| ev_node := "retrieve"; ev_in := s; ev_out := fr s w |} in
      match fr s w with
      | Err e => ([first], Err e)
      | Ok s1 =>
          match lookup "generate" table with
          | None => ([first], Err (Error "Edge to an unknown node."))
          | Some fg =>
              ([first;
                {| ev_node := "generate"; ev_in := s1; ev_out := fg s1 w |}],
               fg s1 w)
          end
      end
  end.
Proof.
  unfold recursionLimit. cbn [walk].
  rewrite graph_edges, graph_registered. cbn [lookup String.eqb Ascii.eqb Bool.eqb START END].
  destruct (lookup "retrieve" table) as [fr | ]; [ | reflexivity].
  destruct (fr s w) as [s1 | e]; [ | reflexivity].
  cbn [lookup String.eqb Ascii.eqb Bool.eqb START END].
  destruct (lookup "generate" table) as [fg | ]; [ | reflexivity].
  destruct (fg s1 w) as [s2 | e]; reflexivity.
Qed.

(** With the two nodes of the service registered, a retriever that returns
    [docs] and a model that returns [completion], the run executes
    [retrieve] and then [generate] and ends in the answered state. *)
Lemma graph_run_completes (svc : t E) (r : Retriever E) (q : string)
    (w : World E) (docs : list Document) (completion : string) :
  retriever svc = Some r ->
  r q w = Ok docs ->
  modelInvoke E (model svc)
    (rendered (join (LF ++ LF) (map pageContent docs)) q) w = Ok completion ->
  invoke (addNodes (nodes svc) (graphBuilder E)) (initialState q) w =
    Ok {| question := q; documents := docs; answer := completion |}
  /\ map ev_node (trace (addNodes (nodes svc) (graphBuilder E))
                    (initialState q) w) = ["retrieve"; "generate"].
Proof.
  intros Hr Hdocs Hmodel. unfold invoke, trace. rewrite graph_walk.
  cbn [nodes lookup String.eqb Ascii.eqb Bool.eqb].
  assert (Hret : retrieve svc (initialState q) w =
                 Ok {| question := q; documents := docs; answer := "" |}).
  { unfold retrieve. rewrite Hr. cbn [initialState question answer].
    rewrite Hdocs. reflexivity. }
  rewrite !Hret.
  rewrite !generate_unfold. cbn [question documents]. rewrite Hmodel.
  split; reflexivity.
Qed.

(** The builder of [initializeGraph] as it stands holds the three edges and
    no node, so a run of it, in this model of the runtime, stops at the first
    edge without executing anything. *)
Lemma graph_as_built_runs_no_node (s : RAGState) (w : World E) :
  registered (graphBuilder E) = [] /\
  trace (graphBuilder E) s w = [] /\
  invoke (graphBuilder E) s w = Err (Error "Edge to an unknown node.").
Proof.
  pose proof (graph_walk [] s w) as Hwalk.
  change (addNodes [] (graphBuilder E)) with (graphBuilder E) in Hwalk.
  unfold trace, invoke. rewrite Hwalk. repeat split.
Qed.

End GraphProperties.

(** C2.  In every run of the graph with the edges of [initializeGraph],
    whatever nodes are registered under the names, an execution of [generate]
    is the second node execution of the run: exactly one execution precedes
    it, that of [retrieve] on the state the run was invoked with, and the
    state [generate] is given, with its [documents], is the state that
    execution of [retrieve] returned.  Nothing runs after [generate]. *)
Theorem generate_only_after_retrieve
    (E : Externals) (table : list (string * NodeFn (World E)))
    (s : RAGState) (w : World E) (before after : list Event) (ev : Event) :
  trace (addNodes table (ChatService.graphBuilder E)) s w
    = (before ++ ev :: after)%list ->
  ev_node ev = "generate" ->
  exists first,
    before = [first] /\
    ev_node first = "retrieve" /\
    ev_in first = s /\
    ev_out first = Ok (ev_in ev) /\
    after = [].
Proof.
  unfold trace. rewrite graph_walk.
  destruct (lookup "retrieve" table) as [fr | ]; cbn [fst].
  - destruct (fr s w) as [s1 | e] eqn:Hfr; cbn [fst].
    + destruct (lookup "generate" table) as [fg | ]; cbn [fst].
      * intros Hsplit Hname.
        destruct before as [ | e1 [ | e2 before]]; simpl in Hsplit.
        -- inversion Hsplit; subst. discriminate Hname.
        -- inversion Hsplit; subst.
           eexists. repeat split.
        -- inversion Hsplit as [[He1 He2 Hrest]].
           destruct before; discriminate Hrest.
      * intros Hsplit Hname.
        destruct before as [ | e1 before]; simpl in Hsplit.
        -- inversion Hsplit; subst. discriminate Hname.
        -- inversion Hsplit as [[He1 Hrest]].
           destruct before; discriminate Hrest.
    + intros Hsplit Hname.
      destruct before as [ | e1 before]; simpl in Hsplit.
      * inversion Hsplit; subst. discriminate Hname.
      * inversion Hsplit as [[He1 Hrest]].
        destruct before; discriminate Hrest.
  - intros Hsplit. destruct before; discriminate Hsplit.
Qed.

Lemma generate_only_after_retrieve_witness :
  let E := InMemory.externals [] in
  let r : ChatService.Retriever E := fun _ w => Ok (InMemory.rowsOf "c" w) in
  let svc := InMemory.readyService r in
  let w : World E := [("c", InMemory.paris)] in
  let s := ChatService.initialState "q" in
  let retrieved := {| question := "q"; documents := [InMemory.paris]; answer := "" |} in
  let e1 := {| ev_node := "retrieve"; ev_in := s; ev_out := Ok retrieved |} in
  let e2 := {| ev_node := "generate"; ev_in := retrieved;
               ev_out := Ok {| question := "q"; documents := [InMemory.paris];
                               answer := "q" |} |} in
  trace (addNodes (ChatService.nodes svc) (ChatService.graphBuilder E)) s w
    = ([e1] ++ e2 :: [])%list /\
  ev_node e2 = "generate" /\
  exists first,
    [e1] = [first] /\ ev_node first = "retrieve" /\ ev_in first = s /\
    ev_out first = Ok (ev_in e2) /\ @nil Event = [].
Proof.
  intros E r svc w s retrieved e1 e2.
  assert (Htrace :
    trace (addNodes (ChatService.nodes svc) (ChatService.graphBuilder E)) s w
      = ([e1] ++ e2 :: [])%list) by reflexivity.
  split; [exact Htrace | split; [reflexivity | ]].
  exact (@generate_only_after_retrieve E (ChatService.nodes svc) s w
           [e1] [] e2 Htrace eq_refl).
Defined.

(** ** The text splitter *)

Lemma string_append_assoc (a b c : string) :
  (a ++ b) ++ c = a ++ (b ++ c).
Proof. induction a as [ | x a IH]; simpl; [reflexivity | now rewrite IH]. Qed.

Section SplitterProperties.
Import TextSplitter.

(** *** Trimming *)








(** *** The pieces of a text *)







(** *** Merging *)





(** *** One separator level *)






End SplitterProperties.







(** * Further properties of the services *)

(** ** The ingestion run and its HTTP handler *)

(** X1.  The [/ingest] handler returns a summary exactly when the loader, the
    splitter and the store write all succeed, one after the other on the
    output of the one before; the summary then reports the number of chunks
    the splitter returned, and the world is the one the single store write,
    into collection ['test_collection_name'], left. *)
Theorem ingestDocuments_success_iff
    (E : Externals) (w w' : World E) (msg : string) :
  AppController.ingestDocuments E w = Ok (msg, w') <->
  exists docs chunks,
    pdfLoad E "./documents/assignment_guide.pdf" w = Ok docs /\
    splitterSplitDocuments E 1000 200 docs = Ok chunks /\
    chromaFromDocuments E chunks OpenAIEmbeddings
      {| collectionName := "test_collection_name";
         url := "http://host.docker.internal:8000" |} w = Ok w' /\
    msg = IngestionService.summary (List.length chunks).
Proof.
  unfold AppController.ingestDocuments, IngestionService.runIngestion.
  rewrite loadDocuments_is_load. split.
  - intros Hrun.
    destruct (pdfLoad E _ w) as [docs | e] eqn:Hload; simpl in Hrun;
      [ | discriminate].
    rewrite splitDocuments_is_split in Hrun.
    destruct (splitterSplitDocuments E 1000 200 docs) as [chunks | e]
      eqn:Hsplit; simpl in Hrun; [ | discriminate].
    unfold IngestionService.embedAndStore in Hrun.
    destruct (chromaFromDocuments E chunks OpenAIEmbeddings
                IngestionService.storeArgs w) as [w1 | e] eqn:Hstore;
      simpl in Hrun; [ | discriminate].
    inversion Hrun; subst. exists docs, chunks.
    split; [reflexivity | split; [exact Hsplit | split; [exact Hstore | reflexivity]]].
  - intros (docs & chunks & Hload & Hsplit & Hstore & Hmsg).
    rewrite Hload. simpl. rewrite splitDocuments_is_split, Hsplit. simpl.
    unfold IngestionService.embedAndStore.
    change IngestionService.storeArgs
      with {| collectionName := "test_collection_name";
              url := "http://host.docker.internal:8000" |}.
    rewrite Hstore, Hmsg. reflexivity.
Qed.

Lemma ingestDocuments_success_iff_witness :
  let E := InMemory.externals [InMemory.paris] in
  AppController.ingestDocuments E [] =
    Ok ("✅ Ingestion Complete! 1 chunks stored in ChromaDB at chroma_data.",
        [("test_collection_name", InMemory.paris)]).
Proof.
  intros E.
  apply (proj2 (@ingestDocuments_success_iff E []
                  [("test_collection_name", InMemory.paris)] _)).
  exists [InMemory.paris], [InMemory.paris].
  repeat split.
Defined.

(** X2.  An ingestion run fails exactly with the error of the first
    collaborator that fails: the loader's, else the splitter's on the loaded
    documents, else the store write's on the chunks.  It has no error of its
    own, and a later collaborator cannot mask an earlier failure. *)
Theorem runIngestion_failure_iff (E : Externals) (w : World E) (e : exn) :
  IngestionService.runIngestion E w = Err e <->
  pdfLoad E "./documents/assignment_guide.pdf" w = Err e
  \/ (exists docs,
        pdfLoad E "./documents/assignment_guide.pdf" w = Ok docs /\
        splitterSplitDocuments E 1000 200 docs = Err e)
  \/ (exists docs chunks,
        pdfLoad E "./documents/assignment_guide.pdf" w = Ok docs /\
        splitterSplitDocuments E 1000 200 docs = Ok chunks /\
        chromaFromDocuments E chunks OpenAIEmbeddings
          IngestionService.storeArgs w = Err e).
Proof.
  unfold IngestionService.runIngestion.
  rewrite loadDocuments_is_load.
  destruct (pdfLoad E _ w) as [docs | e1] eqn:Hload; simpl.
  - rewrite splitDocuments_is_split.
    destruct (splitterSplitDocuments E 1000 200 docs) as [chunks | e2]
      eqn:Hsplit; simpl.
    + unfold IngestionService.embedAndStore.
      destruct (chromaFromDocuments E chunks OpenAIEmbeddings
                  IngestionService.storeArgs w) as [w1 | e3] eqn:Hstore; simpl.
      * split; [discriminate | ].
        intros [H | [(d & Hd & H) | (d & c & Hd & Hc & H)]];
          [discriminate H | | ]; inversion Hd; subst; congruence.
      * split.
        -- intros H. right. right. exists docs, chunks.
           repeat split; congruence.
        -- intros [H | [(d & Hd & H) | (d & c & Hd & Hc & H)]];
             [discriminate H | | ]; inversion Hd; subst; congruence.
    + split.
      * intros H. right. left. exists docs. split; congruence.
      * intros [H | [(d & Hd & H) | (d & c & Hd & Hc & H)]];
          [discriminate H | | ]; inversion Hd; subst; congruence.
  - split.
    + intros H. left. congruence.
    + intros [H | [(d & Hd & _) | (d & c & Hd & _)]];
        [congruence | discriminate Hd | discriminate Hd].
Qed.

Lemma runIngestion_failure_iff_witness :
  let E := Faulty.externals
             {| Faulty.loadFault := None;
                Faulty.splitFault := Some (Error "split failed");
                Faulty.storeFault := Some (Error "store unreachable");
                Faulty.bindFault := None; Faulty.searchFault := None;
                Faulty.modelFault := None; Faulty.compileFault := None |}
             [InMemory.paris] in
  IngestionService.runIngestion E [] = Err (Error "split failed").
Proof.
  intros E.
  apply (proj2 (@runIngestion_failure_iff E [] (Error "split failed"))).
  right. left. exists [InMemory.paris]. split; reflexivity.
Defined.

Lemma append_cancel_l (p x y : string) : p ++ x = p ++ y -> x = y.
Proof.
  induction p as [ | c p IH]; simpl; intros H.
  - exact H.
  - injection H as H. exact (IH H).
Qed.

Lemma append_cancel_r (s : string) :
  forall x y : string, x ++ s = y ++ s -> x = y.
Proof.
  induction x as [ | a x IH]; intros [ | b y] H; simpl in H.
  - reflexivity.
  - apply (f_equal String.length) in H. simpl in H.
    rewrite string_length_append in H. lia.
  - apply (f_equal String.length) in H. simpl in H.
    rewrite string_length_append in H. lia.
  - injection H as Hab H. subst b. rewrite (IH y H). reflexivity.
Qed.

Lemma numberToString_injective (n m : nat) :
  numberToString n = numberToString m -> n = m.
Proof.
  unfold numberToString. intros H.
  apply Unsigned.to_uint_inj.
  apply (f_equal NilEmpty.uint_of_string) in H.
  rewrite !NilEmpty.usu in H. injection H as H. exact H.
Qed.

(** X3.  The success summary determines the chunk count it reports: two runs
    that return the same summary stored the same number of chunks. *)
Theorem summary_injective (n m : nat) :
  IngestionService.summary n = IngestionService.summary m -> n = m.
Proof.
  unfold IngestionService.summary. intros H.
  apply append_cancel_l in H. apply append_cancel_r in H.
  apply numberToString_injective. exact H.
Qed.

Lemma summary_injective_witness :
  IngestionService.summary 12 =
    "✅ Ingestion Complete! 12 chunks stored in ChromaDB at chroma_data."
  /\ 12 = 12.
Proof.
  split.
  - reflexivity.
  - exact (@summary_injective 12 12 eq_refl).
Defined.

(** ** Initialisation of the chat service *)

(** X4.  [onModuleInit] completes exactly when the binding to the existing
    collection and then the compilation of the graph both succeed; the service
    then holds the bound retriever and the compiled graph, and its model is
    untouched. *)
Theorem onModuleInit_success_iff
    (E : Externals) (svc0 svc : ChatService.t E) (w : World E) :
  ChatService.onModuleInit svc0 w = (svc, Ok tt) <->
  exists r g,
    chromaFromExistingCollection E OpenAIEmbeddings
      ChatService.storeArgs w = Ok r /\
    graphCompile E (ChatService.graphBuilder E) = Ok g /\
    svc = {| ChatService.retriever := Some r;
             ChatService.model := ChatService.model svc0;
             ChatService.graph := Some g |}.
Proof.
  unfold ChatService.onModuleInit, ChatService.initializeRetriever,
    ChatService.initializeGraph.
  destruct (chromaFromExistingCollection E OpenAIEmbeddings
              ChatService.storeArgs w) as [r | e1]; simpl.
  - destruct (graphCompile E (ChatService.graphBuilder E)) as [g | e2]; simpl.
    + split.
      * intros H. inversion H; subst. exists r, g. auto.
      * intros (r' & g' & Hr & Hg & Hsvc).
        inversion Hr; inversion Hg; subst. reflexivity.
    + split; [discriminate | ].
      intros (r' & g' & _ & Hg & _). discriminate Hg.
  - split; [discriminate | ].
    intros (r' & g' & Hr & _). discriminate Hr.
Qed.

Lemma onModuleInit_success_iff_witness :
  let E := InMemory.externals [] in
  exists r g,
    ChatService.onModuleInit (ChatService.construct E) [] =
      ({| ChatService.retriever := Some r;
          ChatService.model :=
            {| modelName := "gpt-3.5-turbo-instruct"; temperature := 0 |};
          ChatService.graph := Some g |}, Ok tt).
Proof.
  intros E. eexists. eexists.
  apply (proj2 (@onModuleInit_success_iff E (ChatService.construct E) _ [])).
  eexists. eexists. repeat split.
Defined.

(** X5.  [onModuleInit] fails in two ways only.  When the binding to the
    collection fails, the service is left as it was and the graph is never
    compiled; when the compilation fails, the retriever stays bound and the
    graph field keeps its earlier value.  The error is the failing
    collaborator's. *)
Theorem onModuleInit_failure_iff
    (E : Externals) (svc0 svc : ChatService.t E) (w : World E) (e : exn) :
  ChatService.onModuleInit svc0 w = (svc, Err e) <->
  (chromaFromExistingCollection E OpenAIEmbeddings
     ChatService.storeArgs w = Err e /\ svc = svc0)
  \/ (exists r,
        chromaFromExistingCollection E OpenAIEmbeddings
          ChatService.storeArgs w = Ok r /\
        graphCompile E (ChatService.graphBuilder E) = Err e /\
        svc = {| ChatService.retriever := Some r;
                 ChatService.model := ChatService.model svc0;
                 ChatService.graph := ChatService.graph svc0 |}).
Proof.
  unfold ChatService.onModuleInit, ChatService.initializeRetriever,
    ChatService.initializeGraph.
  destruct (chromaFromExistingCollection E OpenAIEmbeddings
              ChatService.storeArgs w) as [r | e1]; simpl.
  - destruct (graphCompile E (ChatService.graphBuilder E)) as [g | e2]; simpl.
    + split; [discriminate | ].
      intros [[Hr _] | (r' & _ & Hg & _)]; discriminate.
    + split.
      * intros H. inversion H; subst. right. exists r. auto.
      * intros [[Hr _] | (r' & Hr & Hg & Hsvc)]; [discriminate Hr | ].
        inversion Hr; inversion Hg; subst. reflexivity.
  - split.
    + intros H. inversion H; subst. left. auto.
    + intros [[Hr Hsvc] | (r' & Hr & _)]; [ | discriminate Hr].
      inversion Hr; subst. reflexivity.
Qed.

Lemma onModuleInit_failure_iff_witness :
  let E := Faulty.externals
             {| Faulty.loadFault := None; Faulty.splitFault := None;
                Faulty.storeFault := None;
                Faulty.bindFault := Some (Error "collection not found");
                Faulty.searchFault := None; Faulty.modelFault := None;
                Faulty.compileFault := None |} [] in
  ChatService.onModuleInit (ChatService.construct E) [] =
    (ChatService.construct E, Err (Error "collection not found")).
Proof.
  intros E.
  apply (proj2 (@onModuleInit_failure_iff E (ChatService.construct E) _ []
                  (Error "collection not found"))).
  left. split; reflexivity.
Defined.

(** X6.  Once [onModuleInit] has completed on the constructed service, [chat]
    no longer fails for want of initialisation: for every question it is the
    run of the compiled graph on the fresh state, followed by the choice
    between the answer and the placeholder. *)
Theorem chat_after_initialization
    (E : Externals) (svc : ChatService.t E) (w : World E) :
  ChatService.onModuleInit (ChatService.construct E) w = (svc, Ok tt) ->
  exists g,
    graphCompile E (ChatService.graphBuilder E) = Ok g /\
    forall (q : string) (w' : World E),
      ChatService.chat svc q w' =
        (final <- g {| question := q; documents := []; answer := "" |} w' ;;
         Ok (orElse (answer final) "답변을 생성하지 못하였습니다.")).
Proof.
  intros Hinit.
  apply onModuleInit_completed in Hinit.
  destruct Hinit as (r & g & _ & Hcompile & _ & Hgraph).
  exists g. split; [exact Hcompile | ].
  intros q w'. unfold ChatService.chat. rewrite Hgraph. reflexivity.
Qed.

Lemma chat_after_initialization_witness :
  let E := InMemory.externals [] in
  let svc := fst (ChatService.onModuleInit (ChatService.construct E) []) in
  ChatService.onModuleInit (ChatService.construct E) [] = (svc, Ok tt) /\
  exists g,
    graphCompile E (ChatService.graphBuilder E) = Ok g /\
    forall (q : string) (w' : World E),
      ChatService.chat svc q w' =
        (final <- g {| question := q; documents := []; answer := "" |} w' ;;
         Ok (orElse (answer final) "답변을 생성하지 못하였습니다.")).
Proof.
  intros E svc. split.
  - reflexivity.
  - exact (@chat_after_initialization E svc [] eq_refl).
Defined.

(** X7.  [chat] never returns the empty string: a successful call yields
    either a non-empty answer of the graph or the placeholder. *)
Theorem chat_never_empty
    (E : Externals) (svc : ChatService.t E) (q a : string) (w : World E) :
  ChatService.chat svc q w = Ok a -> a <> "".
Proof.
  unfold ChatService.chat.
  destruct (ChatService.graph svc) as [g | ]; [ | discriminate].
  destruct (g (ChatService.initialState q) w) as [final | e]; simpl;
    [ | discriminate].
  intros H. inversion H; subst; clear H.
  unfold orElse. destruct (answer final); simpl; discriminate.
Qed.

Lemma chat_never_empty_witness :
  let E := InMemory.externals [] in
  let svc := InMemory.readyService (E := E) (fun _ w => Ok (InMemory.rowsOf "c" w)) in
  ChatService.chat svc "" [] = Ok "답변을 생성하지 못하였습니다." /\
  "답변을 생성하지 못하였습니다." <> "".
Proof.
  intros E svc.
  assert (H : ChatService.chat svc "" [] = Ok "답변을 생성하지 못하였습니다.")
    by reflexivity.
  split; [exact H | exact (@chat_never_empty E svc "" _ [] H)].
Defined.

(** ** The two nodes *)

Lemma join_app (sep p q : string) (ps qs : list string) :
  join sep ((p :: ps) ++ (q :: qs))%list
  = join sep (p :: ps) ++ sep ++ join sep (q :: qs).
Proof.
  revert p. induction ps as [ | p' ps IH]; intros p.
  - reflexivity.
  - change ((p :: p' :: ps) ++ q :: qs)%list
      with (p :: ((p' :: ps) ++ q :: qs)%list).
    change (((p' :: ps) ++ q :: qs)%list)
      with (p' :: (ps ++ q :: qs)%list) at 1.
    rewrite join_cons.
    change (p' :: (ps ++ q :: qs)%list) with (((p' :: ps) ++ q :: qs)%list).
    rewrite IH, join_cons, !string_append_assoc. reflexivity.
Qed.

(** X8.  The [generate] node returns the state with [answer] replaced by the
    model's completion, unchanged even when it is empty; [question] and
    [documents] are those of the input state.  Both directions: the model's
    completion for the rendered prompt is what the node stores, and every
    state the node returns arises this way. *)
Theorem generate_sets_answer_only
    (E : Externals) (svc : ChatService.t E) (s : RAGState) (w : World E) :
  let prompt :=
    [ ("system",
       ChatService.systemInstruction
         ++ join (LF ++ LF) (map pageContent (documents s))
         ++ LF ++ "</Context>");
      ("human", question s) ] in
  (forall completion,
      modelInvoke E (ChatService.model svc) prompt w = Ok completion ->
      ChatService.generate svc s w =
        Ok {| question := question s; documents := documents s;
              answer := completion |})
  /\
  (forall s',
      ChatService.generate svc s w = Ok s' ->
      question s' = question s /\ documents s' = documents s /\
      modelInvoke E (ChatService.model svc) prompt w = Ok (answer s')).
Proof.
  intros prompt. subst prompt. rewrite generate_unfold.
  unfold ChatService.rendered. split.
  - intros completion Hmodel. rewrite Hmodel. reflexivity.
  - intros s' Hrun.
    destruct (modelInvoke E (ChatService.model svc) _ w) as [c | e];
      [ | discriminate Hrun].
    inversion Hrun; subst. simpl. auto.
Qed.

Lemma generate_sets_answer_only_witness :
  let E := InMemory.externals [] in
  let svc := ChatService.construct E in
  let s := {| question := ""; documents := [InMemory.paris];
              answer := "an earlier answer" |} in
  ChatService.generate svc s [] =
    Ok {| question := ""; documents := [InMemory.paris]; answer := "" |}.
Proof.
  intros E svc s.
  exact (proj1 (@generate_sets_answer_only E svc s []) "" eq_refl).
Defined.

(** X9.  The [generate] node fails exactly when the model call on the
    rendered prompt fails, and with the model's error: rendering the prompt
    never fails, whatever characters the question and the documents
    contain. *)
Theorem generate_failure_iff
    (E : Externals) (svc : ChatService.t E) (s : RAGState) (w : World E)
    (e : exn) :
  ChatService.generate svc s w = Err e <->
  modelInvoke E (ChatService.model svc)
    [ ("system",
       ChatService.systemInstruction
         ++ join (LF ++ LF) (map pageContent (documents s))
         ++ LF ++ "</Context>");
      ("human", question s) ] w = Err e.
Proof.
  rewrite generate_unfold. unfold ChatService.rendered.
  destruct (modelInvoke E (ChatService.model svc) _ w) as [c | e1].
  - split; discriminate.
  - split; intros H; inversion H; reflexivity.
Qed.

Lemma generate_failure_iff_witness :
  let E := Faulty.externals
             {| Faulty.loadFault := None; Faulty.splitFault := None;
                Faulty.storeFault := None; Faulty.bindFault := None;
                Faulty.searchFault := None;
                Faulty.modelFault := Some (Error "rate limited");
                Faulty.compileFault := None |} [] in
  ChatService.generate (ChatService.construct E)
    {| question := "{braces} stay {as they are"; documents := [InMemory.paris];
       answer := "" |} []
  = Err (Error "rate limited").
Proof.
  intros E.
  apply (proj2 (@generate_failure_iff E (ChatService.construct E) _ []
                  (Error "rate limited"))).
  reflexivity.
Defined.

(** X10.  The [retrieve] node fails in two ways only: with the null-field
    error when no retriever is bound, and with the retriever's own error when
    the search for the question fails. *)
Theorem retrieve_failure_iff
    (E : Externals) (svc : ChatService.t E) (s : RAGState) (w : World E)
    (e : exn) :
  ChatService.retrieve svc s w = Err e <->
  (ChatService.retriever svc = None /\
   e = Error "Cannot read properties of null (reading 'invoke')")
  \/ (exists r, ChatService.retriever svc = Some r /\
                r (question s) w = Err e).
Proof.
  unfold ChatService.retrieve.
  destruct (ChatService.retriever svc) as [r | ].
  - destruct (r (question s) w) as [docs | e1] eqn:Hsearch; simpl.
    + split; [discriminate | ].
      intros [[H _] | (r' & Hr & H)]; [discriminate H | ].
      inversion Hr; subst. congruence.
    + split.
      * intros H. inversion H; subst. right. exists r. auto.
      * intros [[H _] | (r' & Hr & H)]; [discriminate H | ].
        inversion Hr; subst. congruence.
  - split.
    + intros H. inversion H; subst. left. auto.
    + intros [[_ H] | (r' & Hr & _)]; [subst; reflexivity | discriminate Hr].
Qed.

Lemma retrieve_failure_iff_witness :
  let E := InMemory.externals [] in
  ChatService.retrieve (ChatService.construct E)
    {| question := "q"; documents := []; answer := "" |} []
  = Err (Error "Cannot read properties of null (reading 'invoke')").
Proof.
  intros E.
  apply (proj2 (@retrieve_failure_iff E (ChatService.construct E) _ [] _)).
  left. split; reflexivity.
Defined.

(** X11.  The [retrieve] node discards the documents of the incoming state:
    two states with the same question and the same answer are mapped to the
    same result, whatever documents they held. *)
Theorem retrieve_discards_incoming_documents
    (E : Externals) (svc : ChatService.t E) (s1 s2 : RAGState) (w : World E) :
  question s1 = question s2 ->
  answer s1 = answer s2 ->
  ChatService.retrieve svc s1 w = ChatService.retrieve svc s2 w.
Proof.
  intros Hq Ha. unfold ChatService.retrieve. rewrite Hq, Ha. reflexivity.
Qed.

Lemma retrieve_discards_incoming_documents_witness :
  let E := InMemory.externals [] in
  let svc := InMemory.readyService (E := E) (fun _ w => Ok (InMemory.rowsOf "c" w)) in
  let s1 := {| question := "q"; documents := []; answer := "" |} in
  let s2 := {| question := "q"; documents := [InMemory.paris]; answer := "" |} in
  documents s1 <> documents s2 /\
  ChatService.retrieve svc s1 [] = ChatService.retrieve svc s2 [].
Proof.
  intros E svc s1 s2. split.
  - discriminate.
  - exact (@retrieve_discards_incoming_documents E svc s1 s2 [] eq_refl eq_refl).
Defined.

(** X12.  Each node consults its own collaborator only: [retrieve] gives the
    same result under any model options and graph, [generate] the same result
    under any retriever and graph. *)
Theorem nodes_use_their_own_collaborator
    (E : Externals) (svc svc' : ChatService.t E) (s : RAGState) (w : World E) :
  (ChatService.retriever svc = ChatService.retriever svc' ->
   ChatService.retrieve svc s w = ChatService.retrieve svc' s w)
  /\
  (ChatService.model svc = ChatService.model svc' ->
   ChatService.generate svc s w = ChatService.generate svc' s w).
Proof.
  split.
  - intros Hr. unfold ChatService.retrieve. rewrite Hr. reflexivity.
  - intros Hm. rewrite !generate_unfold, Hm. reflexivity.
Qed.

Lemma nodes_use_their_own_collaborator_witness :
  let E := InMemory.externals [] in
  let svc := ChatService.construct E in
  let svc' := InMemory.readyService (E := E) (fun _ w => Ok (InMemory.rowsOf "c" w)) in
  let s := {| question := "q"; documents := [InMemory.paris]; answer := "" |} in
  ChatService.retriever svc <> ChatService.retriever svc' /\
  ChatService.generate svc s [] = ChatService.generate svc' s [].
Proof.
  intros E svc svc' s. split.
  - discriminate.
  - exact (proj2 (@nodes_use_their_own_collaborator E svc svc' s []) eq_refl).
Defined.

(** X13.  [retrieve] followed by [generate], the order of the edges: with a
    bound retriever that returns [docs] for the question and a model that
    returns [completion] for the prompt over [docs], the two nodes map a state
    to the state with the same question, the documents [docs] and the answer
    [completion]. *)
Theorem retrieve_then_generate
    (E : Externals) (svc : ChatService.t E) (r : ChatService.Retriever E)
    (s : RAGState) (w : World E) (docs : list Document) (completion : string) :
  ChatService.retriever svc = Some r ->
  r (question s) w = Ok docs ->
  modelInvoke E (ChatService.model svc)
    [ ("system",
       ChatService.systemInstruction
         ++ join (LF ++ LF) (map pageContent docs) ++ LF ++ "</Context>");
      ("human", question s) ] w = Ok completion ->
  (s1 <- ChatService.retrieve svc s w ;; ChatService.generate svc s1 w) =
    Ok {| question := question s; documents := docs; answer := completion |}.
Proof.
  intros Hr Hdocs Hmodel.
  unfold ChatService.retrieve. rewrite Hr, Hdocs. cbn [bind].
  rewrite generate_unfold. unfold ChatService.rendered.
  cbn [question documents]. rewrite Hmodel. reflexivity.
Qed.

Lemma retrieve_then_generate_witness :
  let E := InMemory.externals [] in
  let r : ChatService.Retriever E := fun _ w => Ok (InMemory.rowsOf "c" w) in
  let svc := InMemory.readyService r in
  let s := {| question := "capital?"; documents := []; answer := "" |} in
  let w : World E := [("c", InMemory.paris)] in
  (s1 <- ChatService.retrieve svc s w ;; ChatService.generate svc s1 w) =
    Ok {| question := "capital?"; documents := [InMemory.paris];
          answer := "capital?" |}.
Proof.
  intros E r svc s w.
  exact (@retrieve_then_generate E svc r s w [InMemory.paris] "capital?"
           eq_refl eq_refl eq_refl).
Defined.

(** X14.  The context of the prompt is compositional: when the retrieved
    documents are two non-empty runs, one after the other, the context block
    of the system message is the context of the first run, a blank line, and
    the context of the second run. *)
Theorem context_of_append
    (input : RAGState) (d d' : Document) (ds ds' : list Document) :
  let context := fun docs => join (LF ++ LF) (map pageContent docs) in
  documents input = ((d :: ds) ++ (d' :: ds'))%list ->
  formatMessages ChatService.promptTemplate (ChatService.chainInput input) =
    Ok [ ("system",
          ChatService.systemInstruction
            ++ (context (d :: ds) ++ LF ++ LF ++ context (d' :: ds'))
            ++ LF ++ "</Context>");
         ("human", question input) ].
Proof.
  intros context Hdocs. subst context. unfold ChatService.chainInput.
  rewrite formatMessages_promptTemplate. unfold ChatService.rendered.
  rewrite Hdocs, map_app. cbn [map]. rewrite join_app.
  rewrite !string_append_assoc. reflexivity.
Qed.

Lemma context_of_append_witness :
  let a := {| pageContent := "first"; metadata := [] |} in
  let b := {| pageContent := "second"; metadata := [] |} in
  let input := {| question := "q"; documents := [a; b]; answer := "" |} in
  documents input = ([a] ++ [b])%list /\
  formatMessages ChatService.promptTemplate (ChatService.chainInput input) =
    Ok [ ("system",
          ChatService.systemInstruction
            ++ ("first" ++ LF ++ LF ++ "second") ++ LF ++ "</Context>");
         ("human", "q") ].
Proof.
  intros a b input. split.
  - reflexivity.
  - exact (@context_of_append input a b [] [] eq_refl).
Defined.
